(** * Verification of the nimble-website landing page logic

    Shallow embedding of the stateful parts of the two source files:
    - [Chat]: the scripted chat playback of [ComparisonSection]
      (src/unnamed/part_000), with its timers, its closures and the
      visibility effect that activates it;
    - [Observer]: the two [useIntersectionObserver] hooks;
    - [LeadForm]: [handleFormSubmit] and the submit button of
      [PlanSelectionModal] (src/src/App.js);
    - [Theme]: the persisted dark-mode flag of [App];
    - [Hero]: [handleContactUs] of [HeroSection]. *)

From Stdlib Require Import List String Ascii ZArith Lia Bool.
Import ListNotations.

(** Replaces the [n]-th element of a list; out of range the list is
    returned unchanged. *)
Fixpoint replace_nth {A : Type} (n : nat) (x : A) (l : list A) : list A :=
  match l, n with
  | [], _ => []
  | _ :: t, 0 => x :: t
  | h :: t, S n' => h :: replace_nth n' x t
  end.

Module Chat.

(** [{ type: 'ai' | 'customer', text }] *)
Inductive msg_type := Ai | Customer.

Record message := mkMessage { type : msg_type; text : string }.

Definition dquote : string := String (Ascii.ascii_of_nat 34) EmptyString.

(** The [messages] constant of part_000. *)
Definition messages : list message :=
  [ mkMessage Ai "Hello! How can I assist you today?";
    mkMessage Customer "How do I create a Return Request?";
    mkMessage Ai "You can create a Return in three simple steps: 1) Tap on MyOrders 2) Choose the item to be Returned 3) Enter details requested and create a return request";
    mkMessage Customer "Where should I self-ship the Returns?";
    mkMessage Ai ("You can send the return to any one of the following returns processing facilities listed below. Please ensure that you specify the name of the seller you purchased the products from (You can find the seller name on your order invoice) and dispatch the package to the address listed below. Kindly do not send it to any other address as the return package would not be treated as accepted." ++ dquote);
    mkMessage Customer "I have created a Return request. When will I get the refund";
    mkMessage Ai "Refund will be initiated upon successful pickup as per the Returns Policy. The refund amount is expected to reflect in the customer account within the following timelines: NEFT - 1 to 3 business days post refund initiation, Cyntra Credit - Instant, Online Refund – 7 to 10 days post refund initiation, depending on your bank partner, 'PhonePe wallet' – Instant" ]%string.

(** The variables captured by one call of [startChatAnimation]:
    [let index = 0; let isCancelled = false;]. Each call creates a fresh
    closure; the world keeps them in call order. *)
Record closure := mkClosure { index : nat; isCancelled : bool }.

(** The callbacks handed to [setTimeout]:
    - [CbActivate]: the 1000 ms body of the visibility effect;
    - [CbShow r]: [showNextMessage] of closure [r];
    - [CbAi r msg]: the 700 ms reveal of an ['ai'] message;
    - [CbCustomer r msg]: the 500 ms reveal of a ['customer'] message. *)
Inductive callback :=
| CbActivate
| CbShow (r : nat)
| CbAi (r : nat) (msg : message)
| CbCustomer (r : nat) (msg : message).

Record timer := mkTimer { tid : nat; due : nat; cb : callback }.

(** One mounted [ComparisonSection] together with the browser's timer
    queue. [effect_timeout] is the [timeout] variable captured by the
    cleanup of the current run of the visibility effect. *)
Record world := mkWorld {
  now : nat;
  visibleMessages : list message;
  typingIndex : Z;
  hasBeenVisibleRef : bool;
  comparisonVisible : bool;
  mounted : bool;
  runs : list closure;
  timers : list timer;
  next_tid : nat;
  effect_timeout : option nat }.

Definition set_now t w :=
  mkWorld t (visibleMessages w) (typingIndex w) (hasBeenVisibleRef w)
    (comparisonVisible w) (mounted w) (runs w) (timers w) (next_tid w) (effect_timeout w).
Definition setVisibleMessages v w :=
  mkWorld (now w) v (typingIndex w) (hasBeenVisibleRef w)
    (comparisonVisible w) (mounted w) (runs w) (timers w) (next_tid w) (effect_timeout w).
Definition setTypingIndex i w :=
  mkWorld (now w) (visibleMessages w) i (hasBeenVisibleRef w)
    (comparisonVisible w) (mounted w) (runs w) (timers w) (next_tid w) (effect_timeout w).
Definition set_hasBeenVisible b w :=
  mkWorld (now w) (visibleMessages w) (typingIndex w) b
    (comparisonVisible w) (mounted w) (runs w) (timers w) (next_tid w) (effect_timeout w).
Definition set_comparisonVisible b w :=
  mkWorld (now w) (visibleMessages w) (typingIndex w) (hasBeenVisibleRef w)
    b (mounted w) (runs w) (timers w) (next_tid w) (effect_timeout w).
Definition set_mounted b w :=
  mkWorld (now w) (visibleMessages w) (typingIndex w) (hasBeenVisibleRef w)
    (comparisonVisible w) b (runs w) (timers w) (next_tid w) (effect_timeout w).
Definition set_runs rs w :=
  mkWorld (now w) (visibleMessages w) (typingIndex w) (hasBeenVisibleRef w)
    (comparisonVisible w) (mounted w) rs (timers w) (next_tid w) (effect_timeout w).
Definition set_timers ts w :=
  mkWorld (now w) (visibleMessages w) (typingIndex w) (hasBeenVisibleRef w)
    (comparisonVisible w) (mounted w) (runs w) ts (next_tid w) (effect_timeout w).
Definition set_effect_timeout o w :=
  mkWorld (now w) (visibleMessages w) (typingIndex w) (hasBeenVisibleRef w)
    (comparisonVisible w) (mounted w) (runs w) (timers w) (next_tid w) o.

(** [setTimeout(c, delay)]: queues the callback and returns its id. *)
Definition setTimeout (c : callback) (delay : nat) (w : world) : world * nat :=
  (mkWorld (now w) (visibleMessages w) (typingIndex w) (hasBeenVisibleRef w)
     (comparisonVisible w) (mounted w) (runs w)
     (timers w ++ [mkTimer (next_tid w) (now w + delay) c])
     (S (next_tid w)) (effect_timeout w),
   next_tid w).

(** [clearTimeout(id)]; [clearTimeout(undefined)] does nothing. *)
Definition clearTimeout (id : option nat) (w : world) : world :=
  match id with
  | None => w
  | Some i => set_timers (filter (fun t => negb (tid t =? i)) (timers w)) w
  end.

Definition get_run (r : nat) (w : world) : closure :=
  nth r (runs w) (mkClosure 0 true).

Definition set_run (r : nat) (c : closure) (w : world) : world :=
  set_runs (replace_nth r c (runs w)) w.

(** The initial render: nothing shown, [typingIndex = -1], the ref
    [hasBeenVisibleRef = false], no intersection entry yet. The mount run
    of the visibility effect takes neither branch. *)
Definition init : world :=
  mkWorld 0 [] (-1) false false true [] [] 0 None.

Section Playback.

(** The script played; the component plays [messages]. *)
Variable script : list message.

(** [startChatAnimation()]. The cleanup it returns is discarded by its
    only caller, so nothing in the world keeps it. *)
Definition startChatAnimation (w : world) : world :=
  let r := List.length (runs w) in
  fst (setTimeout (CbShow r) 300 (set_runs (runs w ++ [mkClosure 0 false]) w)).

(** The body of each queued callback. *)
Definition exec_cb (c : callback) (w : world) : world :=
  match c with
  | CbActivate =>
      startChatAnimation (setTypingIndex (-1) (setVisibleMessages [] w))
  | CbShow r =>
      let cl := get_run r w in
      if isCancelled cl || (List.length script <=? index cl) then w
      else
        match nth_error script (index cl) with
        | None => w
        | Some msg =>
            match type msg with
            | Ai => fst (setTimeout (CbAi r msg) 700
                           (setTypingIndex (Z.of_nat (index cl)) w))
            | Customer => fst (setTimeout (CbCustomer r msg) 500 w)
            end
        end
  | CbAi r msg =>
      let cl := get_run r w in
      if isCancelled cl then w
      else
        let w1 := setTypingIndex (-1) (setVisibleMessages (visibleMessages w ++ [msg]) w) in
        let w2 := set_run r (mkClosure (S (index cl)) (isCancelled cl)) w1 in
        fst (setTimeout (CbShow r) 700 w2)
  | CbCustomer r msg =>
      let cl := get_run r w in
      if isCancelled cl then w
      else
        let w1 := setVisibleMessages (visibleMessages w ++ [msg]) w in
        let w2 := set_run r (mkClosure (S (index cl)) (isCancelled cl)) w1 in
        fst (setTimeout (CbShow r) 700 w2)
  end.

(** The timer that fires next: smallest due time, then first queued. *)
Fixpoint earliest (ts : list timer) : option timer :=
  match ts with
  | [] => None
  | t :: ts' =>
      match earliest ts' with
      | None => Some t
      | Some u => if due u <? due t then Some u else Some t
      end
  end.

(** The event loop fires the next timer. *)
Definition fire (w : world) : option world :=
  match earliest (timers w) with
  | None => None
  | Some t =>
      Some (exec_cb (cb t)
              (set_timers (filter (fun u => negb (tid u =? tid t)) (timers w))
                 (set_now (due t) w)))
  end.

Fixpoint fires (n : nat) (w : world) : world :=
  match n with
  | 0 => w
  | S n' => match fire w with None => w | Some w' => fires n' w' end
  end.

(** Time passes up to [t]: every timer due by then fires, in order. *)
Fixpoint run_until (fuel t : nat) (w : world) : world :=
  match fuel with
  | 0 => w
  | S f =>
      match earliest (timers w) with
      | Some tm =>
          if due tm <=? t then
            match fire w with Some w' => run_until f t w' | None => w end
          else set_now (Nat.max (now w) t) w
      | None => set_now (Nat.max (now w) t) w
      end
  end.

End Playback.

(** A new [comparisonVisible] value from the section's own
    [useIntersectionObserver]. The effect with dependency
    [[comparisonVisible]] re-runs only when the value changes: the cleanup
    of the previous run clears its [timeout], then the body runs with a
    fresh [let timeout;]. After unmount the observer watches nothing. *)
Definition set_visible (b : bool) (w : world) : world :=
  if negb (mounted w) || Bool.eqb b (comparisonVisible w) then w
  else
    let w1 := set_effect_timeout None
                (clearTimeout (effect_timeout w) (set_comparisonVisible b w)) in
    if b && negb (hasBeenVisibleRef w1) then
      let '(w2, id) := setTimeout CbActivate 1000 (set_hasBeenVisible true w1) in
      set_effect_timeout (Some id) w2
    else if negb b && hasBeenVisibleRef w1 then set_hasBeenVisible false w1
    else w1.

(** Unmounting runs the cleanup of the visibility effect. *)
Definition unmount (w : world) : world :=
  set_effect_timeout None (clearTimeout (effect_timeout w) (set_mounted false w)).

(** What can happen to a mounted section. *)
Inductive event :=
| EvFire                 (* the next timer fires *)
| EvVisible (b : bool)   (* the intersection entry changes *)
| EvAdvance (t : nat)    (* time passes up to [t] *)
| EvUnmount.

Definition step (script : list message) (e : event) (w : world) : world :=
  match e with
  | EvFire => match fire script w with Some w' => w' | None => w end
  | EvVisible b => set_visible b w
  | EvAdvance t => run_until script 1000 t w
  | EvUnmount => unmount w
  end.

Definition run_events (script : list message) (evs : list event) (w : world) : world :=
  fold_left (fun w e => step script e w) evs w.

(** The host becomes visible at time 0. *)
Definition shown : world := set_visible true init.

End Chat.

(** * The two [useIntersectionObserver] hooks *)

Module Observer.

(** The hook of App.js (and of the top of part_000): the state
    [isVisible], and whether the observer created by the current run of the
    effect still watches the target. *)
Record app_hook := mkAppHook { isVisible : bool; observing : bool }.

Definition app_init : app_hook := mkAppHook false false.

(** The observer callback: for each entry that intersects,
    [setIsVisible(true)] and [observer.disconnect()]. A disconnected
    observer delivers nothing. *)
Definition app_callback (entries : list bool) (h : app_hook) : app_hook :=
  if observing h then
    fold_left (fun (h : app_hook) (isIntersecting : bool) =>
                 if isIntersecting then mkAppHook true false else h) entries h
  else h.

(** A run of the effect (on mount, and whenever [options] is a new
    object): the cleanup unobserves, then a new observer observes the
    target if there is one. [isVisible] is untouched. *)
Definition app_effect (hasTarget : bool) (h : app_hook) : app_hook :=
  mkAppHook (isVisible h) hasTarget.

Inductive app_event :=
| AppIntersect (entries : list bool)
| AppEffect (hasTarget : bool).

Definition app_step (e : app_event) (h : app_hook) : app_hook :=
  match e with
  | AppIntersect es => app_callback es h
  | AppEffect b => app_effect b h
  end.

(** The values of [isVisible] after each event. *)
Fixpoint app_trace (evs : list app_event) (h : app_hook) : list bool :=
  match evs with
  | [] => []
  | e :: evs' => let h' := app_step e h in isVisible h' :: app_trace evs' h'
  end.

(** The hook local to [ComparisonSection]: the last [entry] received and
    whether an observer watches a node. *)
Record cmp_hook := mkCmpHook { entry : option bool; connected : bool }.

Definition cmp_init : cmp_hook := mkCmpHook None false.

(** [([entry]) => setEntry(entry)]: the first entry of the batch. *)
Definition cmp_callback (first : bool) (h : cmp_hook) : cmp_hook :=
  if connected h then mkCmpHook (Some first) true else h.

(** The ref callback: disconnect the old observer, create a new one and
    observe [node] when it is not null. *)
Definition cmp_ref (hasNode : bool) (h : cmp_hook) : cmp_hook :=
  mkCmpHook (entry h) hasNode.

(** [entry?.isIntersecting || false] *)
Definition cmp_visible (h : cmp_hook) : bool :=
  match entry h with Some b => b | None => false end.

Inductive cmp_event :=
| CmpIntersect (first : bool) (rest : list bool)
| CmpRef (hasNode : bool).

Definition cmp_step (e : cmp_event) (h : cmp_hook) : cmp_hook :=
  match e with
  | CmpIntersect f _ => cmp_callback f h
  | CmpRef b => cmp_ref b h
  end.

Fixpoint cmp_trace (evs : list cmp_event) (h : cmp_hook) : list bool :=
  match evs with
  | [] => []
  | e :: evs' => let h' := cmp_step e h in cmp_visible h' :: cmp_trace evs' h'
  end.

(** Number of [false -> true] and of [true -> false] steps in a trace of
    values starting from [prev]. *)
Fixpoint rises (prev : bool) (l : list bool) : nat :=
  match l with
  | [] => 0
  | b :: l' => (if negb prev && b then 1 else 0) + rises b l'
  end.

Fixpoint falls (prev : bool) (l : list bool) : nat :=
  match l with
  | [] => 0
  | b :: l' => (if prev && negb b then 1 else 0) + falls b l'
  end.

End Observer.

(** * The lead-capture form of [App] *)

Module LeadForm.

Record form_data := mkFormData { name : string; email : string; mobile : string; plan : string }.

Definition empty_form : form_data := mkFormData EmptyString EmptyString EmptyString EmptyString.

(** The state of [App] the form uses; [selectedPlan] is the plan object,
    kept by its name; [requests] are the bodies of the [fetch] calls issued
    and [inflight] the ones not yet settled. *)
Record form_state := mkForm {
  isSubmitting : bool;
  submitSuccess : string;
  formData : form_data;
  selectedPlan : option string;
  requests : list form_data;
  inflight : nat }.

Definition success_msg : string := "Thank you! Your request has been submitted.".
Definition not_ok_msg : string := "Failed to submit. Please try again.".
Definition error_msg : string := "An error occurred. Please try again later.".

(** [handleFormSubmit] up to the [fetch] call. *)
Definition handleFormSubmit (s : form_state) : form_state :=
  mkForm true EmptyString (formData s) (selectedPlan s) (requests s ++ [formData s])
    (S (inflight s)).

(** How the request settles: [response.ok], a non-2xx response, or a
    rejected [fetch]. *)
Inductive outcome := RespOk | RespNotOk | NetError.

(** The [.then]/[.catch] branch, then [.finally]. *)
Definition settle (o : outcome) (s : form_state) : form_state :=
  let s1 :=
    match o with
    | RespOk => mkForm (isSubmitting s) success_msg empty_form None (requests s) (inflight s)
    | RespNotOk => mkForm (isSubmitting s) not_ok_msg (formData s) (selectedPlan s) (requests s) (inflight s)
    | NetError => mkForm (isSubmitting s) error_msg (formData s) (selectedPlan s) (requests s) (inflight s)
    end in
  mkForm false (submitSuccess s1) (formData s1) (selectedPlan s1) (requests s1)
    (pred (inflight s1)).

Inductive form_event :=
| ClickSubmit            (* the submit button, [disabled={isSubmitting}] *)
| Settle (o : outcome)   (* a pending request settles *)
| Edit (d : form_data).  (* the inputs' [onChange] *)

Definition form_step (e : form_event) (s : form_state) : form_state :=
  match e with
  | ClickSubmit => if isSubmitting s then s else handleFormSubmit s
  | Settle o => if inflight s =? 0 then s else settle o s
  | Edit d => mkForm (isSubmitting s) (submitSuccess s) d (selectedPlan s) (requests s) (inflight s)
  end.

Definition form_run (evs : list form_event) (s : form_state) : form_state :=
  fold_left (fun s e => form_step e s) evs s.

Definition is_settle (e : form_event) : bool :=
  match e with Settle _ => true | _ => false end.

End LeadForm.

(** * The persisted theme flag of [App] *)

Module Theme.

(** [localStorage]'s ['theme'] entry, the state [isDarkMode], and the
    number of reads of the entry. *)
Record app_theme := mkTheme { storage : option string; isDarkMode : bool; reads : nat }.

(** The effect on [[isDarkMode]]. *)
Definition theme_effect (t : app_theme) : app_theme :=
  mkTheme (Some (if isDarkMode t then "dark" else "light")%string) (isDarkMode t) (reads t).

(** First render: the lazy initializer reads the entry, [savedMode ===
    'dark'] ([getItem] gives [null] when absent), then the effect runs. *)
Definition mount (stored : option string) : app_theme :=
  theme_effect
    (mkTheme stored
       (match stored with Some v => String.eqb v "dark" | None => false end) 1).

(** [toggleDarkMode]; the state changes, so the effect runs again. *)
Definition toggleDarkMode (t : app_theme) : app_theme :=
  theme_effect (mkTheme (storage t) (negb (isDarkMode t)) (reads t)).

Inductive theme_event := Toggle | Rerender.

(** A re-render neither calls the initializer nor re-runs the effect. *)
Definition theme_step (e : theme_event) (t : app_theme) : app_theme :=
  match e with Toggle => toggleDarkMode t | Rerender => t end.

Definition theme_run (evs : list theme_event) (t : app_theme) : app_theme :=
  fold_left (fun t e => theme_step e t) evs t.

End Theme.

(** * [handleContactUs] of [HeroSection] *)

Module Hero.

Record hero := mkHero { email : string; status : string; isLoading : bool; sent : list string }.

Definition prompt_msg : string := "Please enter your email address.".

(** Up to the [fetch] call, which records its [userEmail]. *)
Definition handleContactUs (h : hero) : hero :=
  if String.eqb (email h) EmptyString then mkHero (email h) prompt_msg (isLoading h) (sent h)
  else mkHero (email h) (status h) true (sent h ++ [email h]).

End Hero.

(** * Chat playback: facts *)

Module ChatFacts.
Import Chat.

Lemma nth_replace_nth {A : Type} (l : list A) (r : nat) (x d : A) :
  r < List.length l -> nth r (replace_nth r x l) d = x.
Proof.
  revert r; induction l as [|h t IH]; intros [|r] Hr; simpl in *; try lia.
  - reflexivity.
  - apply IH; lia.
Qed.

Lemma firstn_snoc (S : list message) (i : nat) (m : message) :
  nth_error S i = Some m -> firstn (Datatypes.S i) S = firstn i S ++ [m].
Proof.
  revert i; induction S as [|h t IH]; intros [|i] H; simpl in *; try discriminate.
  - injection H as ->; reflexivity.
  - rewrite (IH i H); reflexivity.
Qed.

Lemma fire_one (S : list message) (w : world) (id d : nat) (c : callback) :
  timers w = [mkTimer id d c] ->
  fire S w = Some (exec_cb S c (set_timers [] (set_now d w))).
Proof.
  intros Ht. unfold fire. rewrite Ht. simpl. rewrite Nat.eqb_refl. reflexivity.
Qed.

Lemma fire_one_eq (S : list message) (w w' : world) (id d : nat) (c : callback) :
  timers w = [mkTimer id d c] -> fire S w = Some w' ->
  w' = exec_cb S c (set_timers [] (set_now d w)).
Proof. intros Ht Hf. rewrite (fire_one S w id d c Ht) in Hf. congruence. Qed.

Lemma fires_succ (S : list message) (n : nat) (w w' : world) :
  fire S w = Some w' -> fires S (Datatypes.S n) w = fires S n w'.
Proof. intros H. simpl. rewrite H. reflexivity. Qed.

(** The bodies of the callbacks, case by case. *)
Lemma exec_show_ai (S : list message) (w : world) (r i : nat) (m : message) :
  get_run r w = mkClosure i false -> nth_error S i = Some m -> type m = Ai ->
  exec_cb S (CbShow r) w = fst (setTimeout (CbAi r m) 700 (setTypingIndex (Z.of_nat i) w)).
Proof.
  intros Hr Hm Ht. assert (Hi : i < List.length S) by
    (apply nth_error_Some; rewrite Hm; discriminate).
  unfold exec_cb. rewrite Hr. simpl.
  replace (List.length S <=? i) with false by (symmetry; apply Nat.leb_gt; lia).
  rewrite Hm, Ht. reflexivity.
Qed.

Lemma exec_show_customer (S : list message) (w : world) (r i : nat) (m : message) :
  get_run r w = mkClosure i false -> nth_error S i = Some m -> type m = Customer ->
  exec_cb S (CbShow r) w = fst (setTimeout (CbCustomer r m) 500 w).
Proof.
  intros Hr Hm Ht. assert (Hi : i < List.length S) by
    (apply nth_error_Some; rewrite Hm; discriminate).
  unfold exec_cb. rewrite Hr. simpl.
  replace (List.length S <=? i) with false by (symmetry; apply Nat.leb_gt; lia).
  rewrite Hm, Ht. reflexivity.
Qed.

Lemma exec_show_done (S : list message) (w : world) (r i : nat) (c : bool) :
  get_run r w = mkClosure i c -> List.length S <= i -> exec_cb S (CbShow r) w = w.
Proof.
  intros Hr Hi. unfold exec_cb. rewrite Hr. simpl.
  replace (List.length S <=? i) with true by (symmetry; apply Nat.leb_le; lia).
  destruct c; reflexivity.
Qed.

Lemma exec_ai (S : list message) (w : world) (r i : nat) (m : message) :
  get_run r w = mkClosure i false ->
  exec_cb S (CbAi r m) w =
  fst (setTimeout (CbShow r) 700
         (set_run r (mkClosure (Datatypes.S i) false)
            (setTypingIndex (-1) (setVisibleMessages (visibleMessages w ++ [m]) w)))).
Proof. intros Hr. unfold exec_cb. rewrite Hr. reflexivity. Qed.

Lemma exec_customer (S : list message) (w : world) (r i : nat) (m : message) :
  get_run r w = mkClosure i false ->
  exec_cb S (CbCustomer r m) w =
  fst (setTimeout (CbShow r) 700
         (set_run r (mkClosure (Datatypes.S i) false)
            (setVisibleMessages (visibleMessages w ++ [m]) w))).
Proof. intros Hr. unfold exec_cb. rewrite Hr. reflexivity. Qed.

Ltac run_of Hr := unfold get_run; simpl; rewrite Hr; reflexivity.

(** One message of a single playback run: [CbShow] then its reveal. *)
Lemma run_chain (S : list message) :
  forall k i w id d,
    i + k = List.length S ->
    runs w = [mkClosure i false] -> timers w = [mkTimer id d (CbShow 0)] ->
    visibleMessages w = firstn i S -> typingIndex w = (-1)%Z ->
    let w' := fires S (2 * k + 1) w in
    timers w' = [] /\ visibleMessages w' = S /\ typingIndex w' = (-1)%Z /\
    runs w' = [mkClosure (List.length S) false].
Proof.
  induction k as [|k IH]; intros i w id d Hk Hr Ht Hv Hty; cbv zeta.
  - change (2 * 0 + 1) with 1.
    rewrite (fires_succ S 0 w _ (fire_one S w id d _ Ht)); cbn [fires].
    rewrite Nat.add_0_r in Hk. subst i.
    rewrite (exec_show_done S _ 0 (List.length S) false); [| run_of Hr | lia].
    simpl. rewrite Hv, firstn_all, Hr. auto.
  - destruct (nth_error S i) as [m|] eqn:Em;
      [| apply nth_error_None in Em; lia].
    replace (2 * Datatypes.S k + 1) with (Datatypes.S (Datatypes.S (2 * k + 1))) by lia.
    rewrite (fires_succ S _ w _ (fire_one S w id d _ Ht)).
    destruct (type m) eqn:Ety.
    + rewrite (exec_show_ai S _ 0 i m); [| run_of Hr | exact Em | exact Ety].
      erewrite fires_succ; [| eapply fire_one; reflexivity].
      rewrite (exec_ai S _ 0 i m); [| run_of Hr].
      eapply (IH (Datatypes.S i)); simpl; try reflexivity; try lia;
        [rewrite Hr; reflexivity | rewrite Hv, <- (firstn_snoc S i m Em); reflexivity].
    + rewrite (exec_show_customer S _ 0 i m); [| run_of Hr | exact Em | exact Ety].
      erewrite fires_succ; [| eapply fire_one; reflexivity].
      rewrite (exec_customer S _ 0 i m); [| run_of Hr].
      eapply (IH (Datatypes.S i)); simpl; try reflexivity; try lia;
        [rewrite Hr; reflexivity | rewrite Hv, <- (firstn_snoc S i m Em); reflexivity].
Qed.

(** The shape of the world during one uninterrupted run, started by
    [shown] and driven only by its own timers. *)
Definition single_run_inv (S : list message) (w : world) : Prop :=
  (runs w = [] /\ visibleMessages w = [] /\ typingIndex w = (-1)%Z /\
   exists id d, timers w = [mkTimer id d CbActivate])
  \/ exists i, runs w = [mkClosure i false] /\ i <= List.length S /\
       visibleMessages w = firstn i S /\
       ((timers w = [] /\ i = List.length S /\ typingIndex w = (-1)%Z)
        \/ (exists id d, timers w = [mkTimer id d (CbShow 0)] /\ typingIndex w = (-1)%Z)
        \/ (exists id d m, timers w = [mkTimer id d (CbAi 0 m)] /\
              nth_error S i = Some m /\ type m = Ai /\ typingIndex w = Z.of_nat i)
        \/ (exists id d m, timers w = [mkTimer id d (CbCustomer 0 m)] /\
              nth_error S i = Some m /\ type m = Customer /\ typingIndex w = (-1)%Z)).

Lemma single_run_inv_shown (S : list message) : single_run_inv S shown.
Proof. left. repeat split. exists 0, 1000. reflexivity. Qed.

Lemma nth_error_lt_length (S : list message) (i : nat) (m : message) :
  nth_error S i = Some m -> i < List.length S.
Proof. intros H. apply nth_error_Some. rewrite H. discriminate. Qed.

Lemma single_run_inv_fire (S : list message) (w w' : world) :
  single_run_inv S w -> fire S w = Some w' -> single_run_inv S w'.
Proof.
  intros [(Hr & Hv & Hty & id & d & Ht) | (i & Hr & Hi & Hv & Hcase)] Hf.
  - rewrite (fire_one_eq S w w' id d _ Ht Hf).
    right. exists 0. simpl. rewrite Hr. repeat split; try lia.
    right; left. eexists _, _. split; reflexivity.
  - destruct Hcase as [(Ht & _ & _) | [(id & d & Ht & Hty) |
      [(id & d & m & Ht & Em & Ety & Hty) | (id & d & m & Ht & Em & Ety & Hty)]]].
    + unfold fire in Hf. rewrite Ht in Hf. discriminate.
    + rewrite (fire_one_eq S w w' id d _ Ht Hf).
      destruct (nth_error S i) as [m|] eqn:Em.
      * destruct (type m) eqn:Ety.
        -- rewrite (exec_show_ai S _ 0 i m); [| run_of Hr | exact Em | exact Ety].
           right. exists i. simpl. rewrite Hr, Hv. repeat split; try lia.
           right; right; left. eexists _, _, m. repeat split; assumption.
        -- rewrite (exec_show_customer S _ 0 i m); [| run_of Hr | exact Em | exact Ety].
           right. exists i. simpl. rewrite Hr, Hv. repeat split; try lia.
           right; right; right. eexists _, _, m. repeat split; assumption.
      * apply nth_error_None in Em.
        rewrite (exec_show_done S _ 0 i false); [| run_of Hr | lia].
        right. exists i. simpl. rewrite Hr, Hv. repeat split; try lia.
        left. repeat split; lia.
    + rewrite (fire_one_eq S w w' id d _ Ht Hf).
      rewrite (exec_ai S _ 0 i m); [| run_of Hr].
      pose proof (nth_error_lt_length S i m Em).
      right. exists (Datatypes.S i). simpl. rewrite Hr. repeat split; try lia.
      * rewrite Hv, <- (firstn_snoc S i m Em). reflexivity.
      * right; left. eexists _, _. split; reflexivity.
    + rewrite (fire_one_eq S w w' id d _ Ht Hf).
      rewrite (exec_customer S _ 0 i m); [| run_of Hr].
      pose proof (nth_error_lt_length S i m Em).
      right. exists (Datatypes.S i). simpl. rewrite Hr. repeat split; try lia.
      * rewrite Hv, <- (firstn_snoc S i m Em). reflexivity.
      * right; left. eexists _, _. split; [reflexivity | exact Hty].
Qed.

Lemma single_run_inv_fires (S : list message) (n : nat) (w : world) :
  single_run_inv S w -> single_run_inv S (fires S n w).
Proof.
  revert w; induction n as [|n IH]; intros w H; simpl; [exact H|].
  destruct (fire S w) as [w'|] eqn:Ef; [| exact H].
  apply IH, (single_run_inv_fire S w w' H Ef).
Qed.

(** Callbacks and timers leave the visibility bookkeeping alone. *)
Lemma exec_cb_fields (S : list message) (c : callback) (w : world) :
  hasBeenVisibleRef (exec_cb S c w) = hasBeenVisibleRef w /\
  comparisonVisible (exec_cb S c w) = comparisonVisible w /\
  mounted (exec_cb S c w) = mounted w /\
  effect_timeout (exec_cb S c w) = effect_timeout w.
Proof.
  destruct c; cbn;
    repeat match goal with
           | |- context [if ?b then _ else _] => destruct b
           | |- context [match ?x with _ => _ end] => destruct x
           end; cbn; auto.
Qed.

Definition vis_inv (w : world) : Prop :=
  hasBeenVisibleRef w = comparisonVisible w /\
  (comparisonVisible w = false -> effect_timeout w = None).

Lemma vis_inv_fire (S : list message) (w w' : world) :
  vis_inv w -> fire S w = Some w' -> vis_inv w'.
Proof.
  unfold fire. destruct (earliest (timers w)) as [t|]; [|discriminate].
  intros [H1 H2] Hf. injection Hf as <-.
  destruct (exec_cb_fields S (cb t)
              (set_timers (filter (fun u => negb (tid u =? tid t)) (timers w))
                 (set_now (due t) w))) as (E1 & E2 & _ & E4).
  unfold vis_inv. rewrite E1, E2, E4. cbn. auto.
Qed.

Lemma vis_inv_run_until (S : list message) (fuel t : nat) (w : world) :
  vis_inv w -> vis_inv (run_until S fuel t w).
Proof.
  revert w; induction fuel as [|f IH]; intros w H; cbn; [exact H|].
  destruct (earliest (timers w)) as [tm|];
    [destruct (due tm <=? t);
       [destruct (fire S w) as [w'|] eqn:Ef; [apply IH, (vis_inv_fire S w w' H Ef) | exact H] |] |];
    exact H.
Qed.

Lemma vis_inv_step (S : list message) (e : event) (w : world) :
  vis_inv w -> vis_inv (step S e w).
Proof.
  intros H. destruct e as [| b | t |]; unfold step.
  - destruct (fire S w) as [w'|] eqn:Ef; [exact (vis_inv_fire S w w' H Ef) | exact H].
  - destruct w as [n v ty hb cv mo rs ts nx eff]; destruct H as [H1 H2];
      cbn in *; subst hb.
    unfold set_visible; destruct mo, b, cv, eff; cbn;
      split; cbn; intros; try discriminate; auto.
  - apply vis_inv_run_until; exact H.
  - destruct H as [H1 H2]. unfold unmount, vis_inv.
    destruct (effect_timeout w); cbn; auto.
Qed.

Lemma vis_inv_run_events (S : list message) (evs : list event) (w : world) :
  vis_inv w -> vis_inv (run_events S evs w).
Proof.
  unfold run_events. revert w; induction evs as [|e evs IH]; intros w H; cbn;
    [exact H | apply IH, vis_inv_step, H].
Qed.

(** C1 (counterexample): the host shown at 0 ms, scrolled away at
    1500 ms and back at once: a second [startChatAnimation] has run by
    3000 ms, and the new run starts from an emptied list. *)
Lemma replay_after_visibility_toggle :
  let w := run_events messages
             [EvVisible true; EvAdvance 1500; EvVisible false; EvVisible true;
              EvAdvance 3000] init in
  List.length (runs w) = 2 /\ visibleMessages (run_events messages [EvAdvance 1500] init) = [] /\
  List.length (visibleMessages (run_events messages [EvVisible true; EvAdvance 2400] init)) = 1 /\
  List.length (visibleMessages w) = 0.
Proof. vm_compute. repeat split; reflexivity. Qed.

(** C1 (amended): while the host stays visible, further [true] reports do
    nothing; each [false -> true] change of the host's visibility while
    mounted schedules exactly one activation 1000 ms later and sets
    [hasBeenVisibleRef]; each [true -> false] change clears that pending
    activation and resets [hasBeenVisibleRef], so the next [false -> true]
    change activates the sequencer again. *)
Theorem activation_per_visibility_rise (S : list message) (evs : list event) :
  let w := run_events S evs init in
  (comparisonVisible w = true -> set_visible true w = w) /\
  (mounted w = true -> comparisonVisible w = false ->
     timers (set_visible true w) =
       timers w ++ [mkTimer (next_tid w) (now w + 1000) CbActivate] /\
     effect_timeout (set_visible true w) = Some (next_tid w) /\
     hasBeenVisibleRef (set_visible true w) = true) /\
  (mounted w = true -> comparisonVisible w = true ->
     hasBeenVisibleRef (set_visible false w) = false /\
     effect_timeout (set_visible false w) = None /\
     timers (set_visible false w) = timers (clearTimeout (effect_timeout w) w)).
Proof.
  cbv zeta.
  assert (Hinv : vis_inv (run_events S evs init))
    by (apply vis_inv_run_events; split; reflexivity).
  destruct (run_events S evs init) as [n v ty hb cv mo rs ts nx eff].
  destruct Hinv as [H1 H2]; cbn in *. subst hb.
  split; [| split].
  - intros ->. unfold set_visible. cbn. destruct mo; reflexivity.
  - intros -> ->. rewrite (H2 eq_refl). cbn. auto.
  - intros -> ->. unfold set_visible. cbn.
    destruct eff; cbn; auto.
Qed.

(** C2 (failing input): the host becomes visible at 0 ms and unmounts at
    1200 ms. The [showNextMessage] timer of the run is still queued after
    the unmount, and it then sets the typing indicator (1300 ms) and
    appends the first message (2000 ms). *)
Lemma unmount_keeps_playback_running :
  let w := run_events messages [EvVisible true; EvAdvance 1200; EvUnmount] init in
  mounted w = false /\ List.map cb (timers w) = [CbShow 0] /\
  visibleMessages w = [] /\ typingIndex w = (-1)%Z /\
  typingIndex (run_events messages [EvAdvance 1300] w) = 0%Z /\
  visibleMessages (run_events messages [EvAdvance 2000] w) = firstn 1 messages /\
  List.length (visibleMessages (run_events messages [EvAdvance 20000] w)) = 7.
Proof. vm_compute. repeat split; reflexivity. Qed.

Lemma get_run_set_run (r : nat) (c : closure) (w : world) :
  r < List.length (runs w) -> get_run r (set_run r c w) = c.
Proof. intros H. unfold get_run, set_run. cbn. apply nth_replace_nth, H. Qed.

(** C4: the delays of one playback run, callback by callback. The event
    loop runs a callback at its due time ([fire]); the activation queues
    [showNextMessage] 300 ms later; for an ['ai'] message at [index] the
    typing indicator is set to [index] and the reveal comes 700 ms later;
    for a ['customer'] message the reveal comes 500 ms later; a reveal
    appends the message (clearing the indicator for ['ai']), advances
    [index] and queues the next [showNextMessage] 700 ms later; past the
    end of the script [showNextMessage] does nothing. *)
Theorem chat_step_delays (S : list message) (w : world) (r i : nat) (m : message)
  (Hrun : get_run r w = mkClosure i false) (Hr : r < List.length (runs w)) :
  (forall t, earliest (timers w) = Some t ->
     fire S w = Some (exec_cb S (cb t)
                        (set_timers (filter (fun u => negb (tid u =? tid t)) (timers w))
                           (set_now (due t) w)))) /\
  (timers (exec_cb S CbActivate w) =
     timers w ++ [mkTimer (next_tid w) (now w + 300) (CbShow (List.length (runs w)))] /\
   visibleMessages (exec_cb S CbActivate w) = [] /\
   typingIndex (exec_cb S CbActivate w) = (-1)%Z /\
   get_run (List.length (runs w)) (exec_cb S CbActivate w) = mkClosure 0 false) /\
  (nth_error S i = Some m -> type m = Ai ->
     typingIndex (exec_cb S (CbShow r) w) = Z.of_nat i /\
     visibleMessages (exec_cb S (CbShow r) w) = visibleMessages w /\
     timers (exec_cb S (CbShow r) w) =
       timers w ++ [mkTimer (next_tid w) (now w + 700) (CbAi r m)]) /\
  (nth_error S i = Some m -> type m = Customer ->
     typingIndex (exec_cb S (CbShow r) w) = typingIndex w /\
     visibleMessages (exec_cb S (CbShow r) w) = visibleMessages w /\
     timers (exec_cb S (CbShow r) w) =
       timers w ++ [mkTimer (next_tid w) (now w + 500) (CbCustomer r m)]) /\
  (List.length S <= i -> exec_cb S (CbShow r) w = w) /\
  (visibleMessages (exec_cb S (CbAi r m) w) = visibleMessages w ++ [m] /\
   typingIndex (exec_cb S (CbAi r m) w) = (-1)%Z /\
   get_run r (exec_cb S (CbAi r m) w) = mkClosure (Datatypes.S i) false /\
   timers (exec_cb S (CbAi r m) w) =
     timers w ++ [mkTimer (next_tid w) (now w + 700) (CbShow r)]) /\
  (visibleMessages (exec_cb S (CbCustomer r m) w) = visibleMessages w ++ [m] /\
   typingIndex (exec_cb S (CbCustomer r m) w) = typingIndex w /\
   get_run r (exec_cb S (CbCustomer r m) w) = mkClosure (Datatypes.S i) false /\
   timers (exec_cb S (CbCustomer r m) w) =
     timers w ++ [mkTimer (next_tid w) (now w + 700) (CbShow r)]).
Proof.
  split; [intros t Ht; unfold fire; rewrite Ht; reflexivity |].
  split.
  { cbn. repeat split. unfold get_run. cbn.
    rewrite app_nth2 by lia. rewrite Nat.sub_diag. reflexivity. }
  split; [intros Em Ety; rewrite (exec_show_ai S w r i m Hrun Em Ety); auto |].
  split; [intros Em Ety; rewrite (exec_show_customer S w r i m Hrun Em Ety); auto |].
  split; [intros Hi; exact (exec_show_done S w r i false Hrun Hi) |].
  split.
  - rewrite (exec_ai S w r i m Hrun). repeat split.
    unfold get_run. cbn. apply nth_replace_nth, Hr.
  - rewrite (exec_customer S w r i m Hrun). repeat split.
    unfold get_run. cbn. apply nth_replace_nth, Hr.
Qed.

(** The world right after the activation of [shown]. *)
Definition activated : world := fires messages 1 shown.

(** C4 witness: the first message of [messages], at the activation. *)
Lemma chat_step_delays_witness :
  get_run 0 activated = mkClosure 0 false /\ 0 < List.length (runs activated) /\
  typingIndex (exec_cb messages (CbShow 0) activated) = Z.of_nat 0.
Proof.
  assert (H1 : get_run 0 activated = mkClosure 0 false) by (vm_compute; reflexivity).
  assert (H2 : 0 < List.length (runs activated)) by (vm_compute; lia).
  split; [exact H1 | split; [exact H2 |]].
  destruct (chat_step_delays messages activated 0 0
              (mkMessage Ai "Hello! How can I assist you today?") H1 H2)
    as (_ & _ & Hai & _).
  apply (Hai eq_refl eq_refl).
Defined.

(** C5: for every script, the run started by the host becoming visible
    ends (no timer left) with exactly the script revealed, in order. *)
Theorem playback_reveals_script (S : list message) :
  let w := fires S (2 + 2 * List.length S) shown in
  timers w = [] /\ fire S w = None /\ visibleMessages w = S /\
  typingIndex w = (-1)%Z.
Proof.
  cbv zeta.
  replace (2 + 2 * List.length S) with (Datatypes.S (2 * List.length S + 1)) by lia.
  rewrite (fires_succ S _ shown _ (fire_one S shown 0 1000 CbActivate eq_refl)).
  destruct (run_chain S (List.length S) 0
              (exec_cb S CbActivate (set_timers [] (set_now 1000 shown))) 1 1300)
    as (Ht & Hv & Hty & _); try reflexivity.
  repeat split; try assumption.
  unfold fire. rewrite Ht. reflexivity.
Qed.

(** C6 (counterexample): at 3500 ms the first two messages are shown and
    the third, an ['ai'] message, is not yet appended, but the typing
    indicator is unset (the 700 ms gap after a reveal); and once the run
    is over the revealed list is the whole script, not a strict prefix. *)
Lemma typing_unset_in_gap :
  let w := run_events messages [EvAdvance 3500] shown in
  visibleMessages w = firstn 2 messages /\ typingIndex w = (-1)%Z /\
  option_map type (nth_error messages 2) = Some Ai /\
  visibleMessages (fires messages 16 shown) = messages.
Proof. vm_compute. repeat split; reflexivity. Qed.

(** C6 (amended): during one uninterrupted run, the revealed list is a
    prefix of the script (the whole script once the run is over); the
    typing indicator is set exactly while the 700 ms reveal of an ['ai']
    message is pending, and then it equals the length of the revealed list
    and points at an ['ai'] message. *)
Theorem playback_prefix_and_typing (S : list message) (n : nat) :
  let w := fires S n shown in
  (exists i, i <= List.length S /\ visibleMessages w = firstn i S) /\
  ((typingIndex w <> (-1))%Z <-> exists t m, timers w = [t] /\ cb t = CbAi 0 m) /\
  ((typingIndex w <> (-1))%Z ->
     typingIndex w = Z.of_nat (List.length (visibleMessages w)) /\
     exists m, nth_error S (List.length (visibleMessages w)) = Some m /\ type m = Ai).
Proof.
  cbv zeta.
  destruct (single_run_inv_fires S n shown (single_run_inv_shown S))
    as [(Hr & Hv & Hty & id & d & Ht) | (i & Hr & Hi & Hv & Hcase)];
    set (w := fires S n shown) in *.
  - rewrite Hv, Hty, Ht. split; [exists 0; split; [lia | reflexivity] |].
    split; [split; [intros H; exfalso; apply H; reflexivity |
                    intros (t & m & Ht' & Hc); injection Ht' as <-; discriminate] |].
    intros H; exfalso; apply H; reflexivity.
  - assert (Hlen : List.length (visibleMessages w) = i)
      by (rewrite Hv; apply firstn_length_le; exact Hi).
    split; [exists i; auto |].
    destruct Hcase as [(Ht & _ & Hty) | [(id & d & Ht & Hty) |
      [(id & d & m & Ht & Em & Ety & Hty) | (id & d & m & Ht & Em & Ety & Hty)]]];
      rewrite Hty.
    + split; [split; [intros H; exfalso; apply H; reflexivity |
                      intros (t & m & Ht' & _); rewrite Ht in Ht'; discriminate] |].
      intros H; exfalso; apply H; reflexivity.
    + split; [split; [intros H; exfalso; apply H; reflexivity |
                      intros (t & m & Ht' & Hc); rewrite Ht in Ht';
                      injection Ht' as <-; discriminate] |].
      intros H; exfalso; apply H; reflexivity.
    + split; [split; [intros _; exists (mkTimer id d (CbAi 0 m)), m; auto | lia] |].
      intros _. rewrite Hlen. split; [reflexivity | exists m; auto].
    + split; [split; [intros H; exfalso; apply H; reflexivity |
                      intros (t & m' & Ht' & Hc); rewrite Ht in Ht';
                      injection Ht' as <-; discriminate] |].
      intros H; exfalso; apply H; reflexivity.
Qed.

End ChatFacts.

(** * The visibility hooks: facts *)

Module ObserverFacts.
Import Observer.

Lemma app_callback_keeps_visible (entries : list bool) (h : app_hook) :
  isVisible h = true -> isVisible (app_callback entries h) = true.
Proof.
  unfold app_callback. destruct (observing h); [| auto].
  revert h; induction entries as [|e es IH]; intros h H; cbn; [exact H|].
  apply IH. destruct e; [reflexivity | exact H].
Qed.

Lemma app_step_keeps_visible (e : app_event) (h : app_hook) :
  isVisible h = true -> isVisible (app_step e h) = true.
Proof.
  destruct e; cbn; [apply app_callback_keeps_visible | auto].
Qed.

Lemma app_trace_all_true (evs : list app_event) (h : app_hook) :
  isVisible h = true -> forall b, In b (app_trace evs h) -> b = true.
Proof.
  revert h; induction evs as [|e evs IH]; intros h H b Hin; cbn in Hin; [contradiction|].
  destruct Hin as [<- | Hin].
  - apply app_step_keeps_visible, H.
  - apply (IH (app_step e h)); [apply app_step_keeps_visible, H | exact Hin].
Qed.

Lemma rises_falls_true (l : list bool) :
  (forall b, In b l -> b = true) -> rises true l = 0 /\ falls true l = 0.
Proof.
  induction l as [|b l IH]; intros H; cbn; [auto|].
  rewrite (H b (or_introl eq_refl)). cbn.
  apply IH. intros x Hx. apply H. right. exact Hx.
Qed.

(** C3 (counterexample): the hook of [ComparisonSection] goes back to
    [false] when its node leaves the viewport. *)
Lemma comparison_hook_flips_back :
  let tr := cmp_trace [CmpRef true; CmpIntersect true []; CmpIntersect false []] cmp_init in
  tr = [false; true; false] /\ falls false tr = 1.
Proof. split; reflexivity. Qed.

(** C3 (amended): the [isVisible] of the App.js hook never goes from
    [true] back to [false] and rises at most once, whatever the
    intersection batches and effect re-runs; the [ComparisonSection] hook
    reports the [isIntersecting] of the latest entry its observer
    delivered, so it can go back to [false]. *)
Theorem visibility_hooks (evs : list app_event) (h : app_hook)
  (f : bool) (rest : list bool) (c : cmp_hook) :
  falls (isVisible h) (app_trace evs h) = 0 /\
  rises (isVisible h) (app_trace evs h) <= 1 /\
  (connected c = true -> cmp_visible (cmp_step (CmpIntersect f rest) c) = f).
Proof.
  split; [| split].
  - revert h; induction evs as [|e evs IH]; intros h; cbn; [reflexivity|].
    destruct (isVisible h) eqn:Hv.
    + rewrite (app_step_keeps_visible e h Hv). cbn.
      apply rises_falls_true, app_trace_all_true, app_step_keeps_visible, Hv.
    + cbn. apply IH.
  - revert h; induction evs as [|e evs IH]; intros h; cbn; [lia|].
    destruct (isVisible (app_step e h)) eqn:Hv.
    + rewrite (proj1 (rises_falls_true _ (app_trace_all_true evs _ Hv))).
      destruct (isVisible h); cbn; lia.
    + rewrite andb_false_r. cbn. rewrite <- Hv. apply IH.
  - intros Hc. cbn. unfold cmp_callback. rewrite Hc. reflexivity.
Qed.

End ObserverFacts.

(** * The lead-capture form: facts *)

Module LeadFormFacts.
Import LeadForm.

Lemma form_run_no_settle (evs : list form_event) (s : form_state) :
  isSubmitting s = true -> forallb (fun e => negb (is_settle e)) evs = true ->
  let s' := form_run evs s in
  isSubmitting s' = true /\ requests s' = requests s /\ inflight s' = inflight s /\
  submitSuccess s' = submitSuccess s.
Proof.
  unfold form_run. revert s; induction evs as [|e evs IH]; intros s Hs Hev; cbn in *;
    [auto|].
  apply andb_prop in Hev as [He Hev].
  destruct e as [| o | d]; cbn in He; try discriminate.
  - replace (form_step ClickSubmit s) with s by (cbn; rewrite Hs; reflexivity).
    apply IH; assumption.
  - apply (IH (form_step (Edit d) s)); assumption.
Qed.

(** C7: from an idle form, a click issues one request; further clicks
    before it settles issue none (the button is disabled while
    [isSubmitting]); a failed settlement (non-2xx or rejected [fetch])
    shows its failure message and leaves [isSubmitting] false. *)
Theorem lead_form_failure (s : form_state) (evs : list form_event) (o : outcome)
  (Hidle : isSubmitting s = false) (Hnone : inflight s = 0)
  (Hev : forallb (fun e => negb (is_settle e)) evs = true) (Hfail : o <> RespOk) :
  let s1 := form_run (ClickSubmit :: evs) s in
  requests s1 = requests s ++ [formData s] /\ isSubmitting s1 = true /\
  inflight s1 = 1 /\
  let s2 := form_step (Settle o) s1 in
  isSubmitting s2 = false /\ requests s2 = requests s1 /\ inflight s2 = 0 /\
  submitSuccess s2 = match o with RespNotOk => not_ok_msg | _ => error_msg end.
Proof.
  cbv zeta.
  assert (E : form_run (ClickSubmit :: evs) s = form_run evs (handleFormSubmit s))
    by (unfold form_run; cbn [fold_left]; unfold form_step at 2; rewrite Hidle; reflexivity).
  rewrite E.
  destruct (form_run_no_settle evs (handleFormSubmit s) eq_refl Hev)
    as (Hs & Hr & Hi & _).
  set (s1 := form_run evs (handleFormSubmit s)) in *.
  assert (Hi1 : inflight s1 = 1) by (rewrite Hi; cbn; rewrite Hnone; reflexivity).
  assert (Hst : form_step (Settle o) s1 = settle o s1)
    by (unfold form_step; rewrite Hi1; reflexivity).
  rewrite Hst. repeat split; try assumption.
  - destruct o; reflexivity.
  - destruct o; cbn; rewrite Hi1; reflexivity.
  - destruct o; [contradiction | reflexivity | reflexivity].
Qed.

Definition sample_form : form_state :=
  mkForm false EmptyString (mkFormData "Ana" "ana@example.com" "555" "Pro") (Some "Pro"%string) [] 0.

(** C7 witness: a network error after two extra clicks. *)
Lemma lead_form_failure_witness :
  isSubmitting (form_step (Settle NetError)
    (form_run [ClickSubmit; ClickSubmit; ClickSubmit] sample_form)) = false /\
  List.length (requests (form_run [ClickSubmit; ClickSubmit; ClickSubmit] sample_form)) = 1.
Proof.
  assert (Hne : NetError <> RespOk) by discriminate.
  destruct (lead_form_failure sample_form [ClickSubmit; ClickSubmit] NetError
              eq_refl eq_refl eq_refl Hne) as (Hr & _ & _ & Hs2 & _).
  split; [exact Hs2 | rewrite Hr; reflexivity].
Defined.

(** C10: a click leaves [formData] and [selectedPlan] alone; a settlement
    clears them on a 2xx response and leaves them unchanged on a non-2xx
    response or a rejected [fetch]. *)
Theorem form_cleared_only_on_success (s : form_state) (o : outcome)
  (Hpending : inflight s <> 0) :
  formData (form_step ClickSubmit s) = formData s /\
  selectedPlan (form_step ClickSubmit s) = selectedPlan s /\
  (o = RespOk ->
     formData (form_step (Settle o) s) = empty_form /\
     selectedPlan (form_step (Settle o) s) = None) /\
  (o <> RespOk ->
     formData (form_step (Settle o) s) = formData s /\
     selectedPlan (form_step (Settle o) s) = selectedPlan s).
Proof.
  assert (Hz : (inflight s =? 0) = false) by (apply Nat.eqb_neq, Hpending).
  split; [cbn; destruct (isSubmitting s); reflexivity |].
  split; [cbn; destruct (isSubmitting s); reflexivity |].
  split.
  - intros ->. cbn. rewrite Hz. auto.
  - intros Ho. cbn. rewrite Hz. destruct o; [contradiction | auto | auto].
Qed.

(** C10 witness: a non-2xx response to the request of [sample_form]. *)
Lemma form_cleared_only_on_success_witness :
  formData (form_step (Settle RespNotOk) (form_step ClickSubmit sample_form)) =
  formData sample_form.
Proof.
  assert (Hp : inflight (form_step ClickSubmit sample_form) <> 0) by (cbn; discriminate).
  destruct (form_cleared_only_on_success (form_step ClickSubmit sample_form) RespNotOk Hp)
    as (_ & _ & _ & Hfail).
  rewrite (proj1 (Hfail ltac:(discriminate))). reflexivity.
Defined.

End LeadFormFacts.

(** * The theme flag: facts *)

Module ThemeFacts.
Import Theme.

(** C8: the entry is read once, on mount; only a stored ["dark"] starts
    in dark mode; after mount and after every later event the entry holds
    ["dark"] in dark mode and ["light"] otherwise, and a toggle flips the
    mode. *)
Theorem theme_persistence (stored : option string) (evs : list theme_event) :
  let t := theme_run evs (mount stored) in
  reads t = 1 /\
  (isDarkMode (mount stored) = true <-> stored = Some "dark"%string) /\
  storage t = Some (if isDarkMode t then "dark" else "light")%string /\
  isDarkMode (theme_step Toggle t) = negb (isDarkMode t).
Proof.
  cbv zeta.
  assert (Hall : forall t, reads t = 1 ->
            storage t = Some (if isDarkMode t then "dark" else "light")%string ->
            let t' := theme_run evs t in
            reads t' = 1 /\
            storage t' = Some (if isDarkMode t' then "dark" else "light")%string).
  { unfold theme_run. induction evs as [|e evs IH]; intros t Hr Hs; cbn; [auto|].
    apply IH; destruct e; cbn; auto. }
  destruct (Hall (mount stored) eq_refl eq_refl) as [Hr Hs].
  split; [exact Hr |]. split; [| split; [exact Hs | reflexivity]].
  destruct stored as [v|]; cbn.
  - rewrite String.eqb_eq. split; [intros ->; reflexivity | congruence].
  - split; discriminate.
Qed.

End ThemeFacts.

(** * The contact handler of the hero section: facts *)

Module HeroFacts.
Import Hero.

(** C9: with an empty email the handler only sets the prompt: no request
    is issued and [isLoading] is left as it was. *)
Theorem contact_empty_email (h : hero) (Hempty : email h = EmptyString) :
  status (handleContactUs h) = prompt_msg /\ sent (handleContactUs h) = sent h /\
  isLoading (handleContactUs h) = isLoading h /\ email (handleContactUs h) = email h.
Proof. unfold handleContactUs. rewrite Hempty. cbn. auto. Qed.

(** C9 witness: the initial state of [HeroSection]. *)
Lemma contact_empty_email_witness :
  let h := mkHero EmptyString EmptyString false [] in
  sent (handleContactUs h) = [] /\ isLoading (handleContactUs h) = false.
Proof.
  cbv zeta.
  destruct (contact_empty_email (mkHero EmptyString EmptyString false []) eq_refl)
    as (_ & Hs & Hl & _).
  split; [exact Hs | exact Hl].
Defined.

End HeroFacts.

(** * Chat playback: further facts *)

Module ChatExtra.
Import Chat ChatFacts.


























End ChatExtra.

(** * Visibility hook, theme: further facts *)

Module ObserverExtra.
Import Observer.



End ObserverExtra.

Module ThemeExtra.
Import Theme.

Fixpoint toggles (evs : list theme_event) : nat :=
  match evs with
  | [] => 0
  | Toggle :: evs' => S (toggles evs')
  | Rerender :: evs' => toggles evs'
  end.

Lemma theme_run_consistent (evs : list theme_event) (t : app_theme) :
  storage t = Some (if isDarkMode t then "dark" else "light")%string ->
  storage (theme_run evs t) =
    Some (if isDarkMode (theme_run evs t) then "dark" else "light")%string /\
  reads (theme_run evs t) = reads t /\
  isDarkMode (theme_run evs t) = xorb (isDarkMode t) (Nat.odd (toggles evs)).
Proof.
  unfold theme_run. revert t; induction evs as [|e evs IH]; intros t Hs; cbn.
  - rewrite xorb_false_r. auto.
  - destruct e; cbn.
    + destruct (IH (toggleDarkMode t) eq_refl) as (H1 & H2 & H3).
      rewrite H1, H2, H3. cbn. rewrite Nat.odd_succ, <- Nat.negb_odd.
      destruct (isDarkMode t), (Nat.odd (toggles evs)); auto.
    + apply IH, Hs.
Qed.

(** After mount and any events, dark mode is on exactly when the stored
    value was ["dark"] and the number of toggles is even, or it was not
    and the number is odd; toggling twice gives back the same state,
    stored value included. *)
Theorem theme_toggle_parity (stored : option string) (evs : list theme_event) :
  isDarkMode (theme_run evs (mount stored)) =
    xorb (match stored with Some v => String.eqb v "dark" | None => false end)
         (Nat.odd (toggles evs)) /\
  theme_run [Toggle; Toggle] (theme_run evs (mount stored)) = theme_run evs (mount stored).
Proof.
  destruct (theme_run_consistent evs (mount stored) eq_refl) as (H1 & _ & H3).
  split; [exact H3 |].
  destruct (theme_run evs (mount stored)) as [st dm rd]. cbn in *.
  rewrite H1. destruct dm; reflexivity.
Qed.

End ThemeExtra.

(** * The Contact Us control of [HeroSection] *)

Module HeroUI.
Import Hero.

(** [showInput] and the rest of the section's state. *)
Record hero_ui := mkHeroUI { showInput : bool; hs : hero }.

Definition hero_init : hero_ui := mkHeroUI false (mkHero EmptyString EmptyString false []).

(** The input's [onChange]. *)
Definition type_email (v : string) (u : hero_ui) : hero_ui :=
  mkHeroUI (showInput u) (mkHero v (status (hs u)) (isLoading (hs u)) (sent (hs u))).

(** The Contact Us button's [onClick]: the first click only shows the
    input; later clicks call [handleContactUs]. The button is never
    disabled. *)
Definition contact_click (u : hero_ui) : hero_ui :=
  if negb (showInput u) then mkHeroUI true (hs u)
  else mkHeroUI (showInput u) (handleContactUs (hs u)).

Definition sent_msg : string := "Message sent successfully!".
Definition failed_msg : string := "Failed to send message. Please try again.".
Definition contact_error_msg : string := "An error occurred. Please try again later.".

(** How the [fetch] settles; for a non-2xx response, whether
    [await response.json()] succeeds. *)
Inductive contact_outcome := ContactOk | ContactNotOk (body_is_json : bool) | ContactNetError.

(** The [.then] branch (a rejected [response.json()] throws into
    [.catch]), the [.catch] branch, then [.finally]. *)
Definition contact_settle (o : contact_outcome) (h : hero) : hero :=
  let h1 :=
    match o with
    | ContactOk => mkHero EmptyString sent_msg (isLoading h) (sent h)
    | ContactNotOk true => mkHero (email h) failed_msg (isLoading h) (sent h)
    | ContactNotOk false | ContactNetError =>
        mkHero (email h) contact_error_msg (isLoading h) (sent h)
    end in
  mkHero (email h1) (status h1) false (sent h1).

End HeroUI.

Module HeroUIFacts.
Import Hero HeroUI.

(** Starting from the initial section, typing a non-empty email and
    clicking once sends nothing (the input is only revealed); the second
    click sends one request with that email and sets [isLoading]. *)
Theorem contact_two_clicks (v : string) (Hv : v <> EmptyString) :
  sent (hs (contact_click (type_email v hero_init))) = [] /\
  showInput (contact_click (type_email v hero_init)) = true /\
  sent (hs (contact_click (contact_click (type_email v hero_init)))) = [v] /\
  isLoading (hs (contact_click (contact_click (type_email v hero_init)))) = true.
Proof.
  assert (E : String.eqb v EmptyString = false) by (apply String.eqb_neq, Hv).
  cbn. unfold handleContactUs. cbn. rewrite E. auto.
Qed.

Lemma contact_two_clicks_witness :
  sent (hs (contact_click (contact_click (type_email "ana@example.com" hero_init)))) =
  ["ana@example.com"%string].
Proof.
  assert (Hv : "ana@example.com"%string <> EmptyString) by discriminate.
  exact (proj1 (proj2 (proj2 (contact_two_clicks "ana@example.com" Hv)))).
Defined.

Lemma contact_click_shown (u : hero_ui) :
  showInput u = true -> contact_click u = mkHeroUI true (handleContactUs (hs u)).
Proof. intros H. unfold contact_click. rewrite H. reflexivity. Qed.

(** Clicks are not held back while a request is pending: once the input
    is shown, [n] clicks with a non-empty email send [n] requests, whatever
    [isLoading] is. *)
Theorem contact_clicks_unguarded (n : nat) (u : hero_ui)
  (Hshown : showInput u = true) (Hv : email (hs u) <> EmptyString) :
  sent (hs (Nat.iter n contact_click u)) = sent (hs u) ++ repeat (email (hs u)) n /\
  email (hs (Nat.iter n contact_click u)) = email (hs u) /\
  showInput (Nat.iter n contact_click u) = true.
Proof.
  assert (E : String.eqb (email (hs u)) EmptyString = false) by (apply String.eqb_neq, Hv).
  induction n as [|n (IH1 & IH2 & IH3)]; cbn [repeat].
  - rewrite app_nil_r. auto.
  - change (Nat.iter (Datatypes.S n) contact_click u) with (contact_click (Nat.iter n contact_click u)).
    rewrite (contact_click_shown _ IH3). cbn [hs showInput].
    unfold handleContactUs. rewrite IH2, E. cbn [sent email].
    rewrite IH1, <- app_assoc. cbn [app]. rewrite repeat_cons. auto.
Qed.

Lemma contact_clicks_unguarded_witness :
  List.length (sent (hs (Nat.iter 3 contact_click
     (mkHeroUI true (mkHero "ana@example.com" EmptyString true []))))) = 3.
Proof.
  assert (Hv : email (hs (mkHeroUI true (mkHero "ana@example.com" EmptyString true []))) <> EmptyString)
    by discriminate.
  rewrite (proj1 (contact_clicks_unguarded 3
    (mkHeroUI true (mkHero "ana@example.com" EmptyString true [])) eq_refl Hv)).
  reflexivity.
Defined.

(** A click that sends the email, followed by its settlement: exactly one
    request with that email is recorded and [isLoading] ends false; only a
    2xx response clears the email; a non-2xx response shows the failure
    message when its body is JSON and, when it is not, the generic error
    message of a network error. *)
Theorem contact_round_trip (o : contact_outcome) (u : hero_ui)
  (Hshown : showInput u = true) (Hv : email (hs u) <> EmptyString) :
  isLoading (contact_settle o (hs (contact_click u))) = false /\
  sent (contact_settle o (hs (contact_click u))) = sent (hs u) ++ [email (hs u)] /\
  email (contact_settle o (hs (contact_click u))) =
    (match o with ContactOk => EmptyString | _ => email (hs u) end) /\
  status (contact_settle o (hs (contact_click u))) =
    match o with
    | ContactOk => sent_msg
    | ContactNotOk true => failed_msg
    | _ => contact_error_msg
    end.
Proof.
  assert (E : String.eqb (email (hs u)) EmptyString = false) by (apply String.eqb_neq, Hv).
  rewrite (contact_click_shown _ Hshown). cbn [hs]. unfold handleContactUs. rewrite E.
  destruct o as [| [] |]; cbn; auto.
Qed.

Lemma contact_round_trip_witness :
  status (contact_settle (ContactNotOk false)
    (hs (contact_click (mkHeroUI true (mkHero "ana@example.com" EmptyString false []))))) =
  contact_error_msg.
Proof.
  assert (Hv : email (hs (mkHeroUI true (mkHero "ana@example.com" EmptyString false []))) <> EmptyString)
    by discriminate.
  exact (proj2 (proj2 (proj2 (contact_round_trip (ContactNotOk false)
    (mkHeroUI true (mkHero "ana@example.com" EmptyString false [])) eq_refl Hv)))).
Defined.

End HeroUIFacts.

(** * [handlePlanSelect] and [PlanSelectionModal] *)

Module LeadModal.
Import LeadForm.

(** [isModalOpen] with the form state of [App]. *)
Record modal_state := mkModal { isModalOpen : bool; fs : form_state }.

Definition modal_init : modal_state :=
  mkModal false (mkForm false EmptyString empty_form None [] 0).

Definition set_plan (p : string) (d : form_data) : form_data :=
  mkFormData (name d) (email d) (mobile d) p.

(** [handlePlanSelect(plan)], the plan kept by its [name]. *)
Definition handlePlanSelect (p : string) (m : modal_state) : modal_state :=
  let s := fs m in
  mkModal true (mkForm (isSubmitting s) EmptyString (set_plan p (formData s)) (Some p)
    (requests s) (inflight s)).

(** The modal's [onClose]. *)
Definition onClose (m : modal_state) : modal_state := mkModal false (fs m).

(** [handleBackdropClick] for a click on the backdrop itself
    ([e.target === e.currentTarget]). *)
Definition handleBackdropClick (m : modal_state) : modal_state :=
  if negb (isSubmitting (fs m)) then onClose m else m.

Definition nonempty (s : string) : bool := negb (String.eqb s EmptyString).

(** The form is rendered while the modal is open and [submitSuccess] is
    empty. *)
Definition form_shown (m : modal_state) : bool :=
  isModalOpen m && String.eqb (submitSuccess (fs m)) EmptyString.

(** What the modal shows: the form, or the status, green when it starts
    with "Thank". *)
Inductive modal_view := Closed | FormView | StatusView (green : bool) (msg : string).

Definition modal_view_of (m : modal_state) : modal_view :=
  if negb (isModalOpen m) then Closed
  else if String.eqb (submitSuccess (fs m)) EmptyString then FormView
  else StatusView (String.prefix "Thank" (submitSuccess (fs m))) (submitSuccess (fs m)).

(** [selectedPlan?.name] in the header's template literal. *)
Definition plan_label (o : option string) : string :=
  match o with Some p => p | None => "undefined" end.

Definition modal_title (m : modal_state) : string :=
  if String.eqb (submitSuccess (fs m)) EmptyString
  then ("Select " ++ plan_label (selectedPlan (fs m)) ++ " Plan")%string
  else "Success".

Inductive modal_event :=
| PlanSelect (p : string)   (* a pricing card's button *)
| CloseClick                (* the X or the Cancel button *)
| BackdropClick
| SubmitClick
| EditName (v : string)
| EditEmail (v : string)
| EditMobile (v : string)
| ModalSettle (o : outcome).

Section Validation.

(** The browser's check of the [type='email'] input. *)
Variable email_valid : string -> bool.

(** The submit button is enabled and the [required] inputs pass the
    browser's constraint validation. *)
Definition can_submit (m : modal_state) : bool :=
  let d := formData (fs m) in
  form_shown m && negb (isSubmitting (fs m)) && nonempty (name d) && nonempty (email d)
  && email_valid (email d) && nonempty (mobile d).

Definition submit_click (m : modal_state) : modal_state :=
  if can_submit m then mkModal (isModalOpen m) (handleFormSubmit (fs m)) else m.

(** The inputs' [onChange]; the plan input is [readOnly]. *)
Definition edit_form (f : form_data -> form_data) (m : modal_state) : modal_state :=
  let s := fs m in
  if form_shown m
  then mkModal (isModalOpen m)
         (mkForm (isSubmitting s) (submitSuccess s) (f (formData s)) (selectedPlan s)
            (requests s) (inflight s))
  else m.

Definition modal_step (e : modal_event) (m : modal_state) : modal_state :=
  match e with
  | PlanSelect p => handlePlanSelect p m
  | CloseClick => if isModalOpen m then onClose m else m
  | BackdropClick => if isModalOpen m then handleBackdropClick m else m
  | SubmitClick => submit_click m
  | EditName v => edit_form (fun d => mkFormData v (email d) (mobile d) (plan d)) m
  | EditEmail v => edit_form (fun d => mkFormData (name d) v (mobile d) (plan d)) m
  | EditMobile v => edit_form (fun d => mkFormData (name d) (email d) v (plan d)) m
  | ModalSettle o => if inflight (fs m) =? 0 then m else mkModal (isModalOpen m) (settle o (fs m))
  end.

Definition modal_run (evs : list modal_event) (m : modal_state) : modal_state :=
  fold_left (fun m e => modal_step e m) evs m.

End Validation.

(** The plan names selected by the events. *)
Definition selected_of (e : modal_event) : list string :=
  match e with PlanSelect p => [p] | _ => [] end.

Definition selected (evs : list modal_event) : list string := List.concat (List.map selected_of evs).

End LeadModal.

Module LeadModalFacts.
Import LeadForm LeadModal.

Definition settle_msg (o : outcome) : string :=
  match o with RespOk => success_msg | RespNotOk => not_ok_msg | NetError => error_msg end.

Lemma settle_msg_nonempty (o : outcome) : String.eqb (settle_msg o) EmptyString = false.
Proof. destruct o; reflexivity. Qed.

Lemma settle_submitSuccess (o : outcome) (s : form_state) :
  submitSuccess (settle o s) = settle_msg o.
Proof. destruct o; reflexivity. Qed.

Lemma settle_msg_green (o : outcome) :
  String.prefix "Thank" (settle_msg o) = match o with RespOk => true | _ => false end.
Proof. destruct o; reflexivity. Qed.

(** A request settling while the modal is open replaces the form with its
    status, green only for a 2xx response; the header then reads "Success"
    whatever the outcome. *)
Theorem modal_settle_view (ev : string -> bool) (o : outcome) (m : modal_state)
  (Hopen : isModalOpen m = true) (Hin : inflight (fs m) <> 0) :
  modal_view_of (modal_step ev (ModalSettle o) m) =
    StatusView (match o with RespOk => true | _ => false end) (settle_msg o) /\
  modal_title (modal_step ev (ModalSettle o) m) = "Success"%string.
Proof.
  cbn [modal_step]. apply Nat.eqb_neq in Hin. rewrite Hin.
  unfold modal_view_of, modal_title. cbn [fs isModalOpen]. rewrite Hopen, settle_submitSuccess.
  rewrite settle_msg_nonempty, settle_msg_green. auto.
Qed.

Definition has_at (e : string) : bool :=
  existsb (fun c => Ascii.eqb c "@"%char) (list_ascii_of_string e).

Definition pending : modal_state :=
  mkModal true (mkForm true EmptyString
    (mkFormData "Ana" "ana@example.com" "5550100" "Starter") (Some "Starter"%string)
    [mkFormData "Ana" "ana@example.com" "5550100" "Starter"] 1).

Lemma modal_settle_view_witness :
  modal_title (modal_step has_at (ModalSettle RespNotOk) pending) = "Success"%string.
Proof.
  assert (Hin : inflight (fs pending) <> 0) by discriminate.
  exact (proj2 (modal_settle_view has_at RespNotOk pending eq_refl Hin)).
Defined.



(** The X and Cancel buttons close the modal even while submitting, and
    closing does not abort the request: it settles on the form state as if
    the modal had stayed open. *)
Theorem close_does_not_cancel (ev : string -> bool) (o : outcome) (m : modal_state) :
  isModalOpen (modal_step ev CloseClick m) = false /\
  fs (modal_step ev (ModalSettle o) (modal_step ev CloseClick m)) =
  fs (modal_step ev (ModalSettle o) m).
Proof.
  cbn [modal_step]. destruct (isModalOpen m) eqn:Ho.
  - unfold onClose. cbn [fs isModalOpen]. split; [reflexivity|].
    destruct (inflight (fs m) =? 0); reflexivity.
  - split; [exact Ho | destruct (inflight (fs m) =? 0); reflexivity].
Qed.



(** Once a submit has gone out, further clicks on the submit button issue
    no request until it settles: the button is disabled. *)
Theorem submit_once (ev : string -> bool) (n : nat) (m : modal_state) :
  List.length (requests (fs (Nat.iter n (modal_step ev SubmitClick) (modal_step ev SubmitClick m))))
  <= S (List.length (requests (fs m))).
Proof.
  change (modal_step ev SubmitClick) with (submit_click ev).
  destruct (can_submit ev m) eqn:Hc.
  - assert (E : submit_click ev m = mkModal (isModalOpen m) (handleFormSubmit (fs m)))
      by (unfold submit_click; rewrite Hc; reflexivity).
    rewrite E.
    assert (Hk : forall k, Nat.iter k (submit_click ev)
                   (mkModal (isModalOpen m) (handleFormSubmit (fs m))) =
                 mkModal (isModalOpen m) (handleFormSubmit (fs m))).
    { induction k as [|k IH]; [reflexivity|].
      change (Nat.iter (S k) (submit_click ev) (mkModal (isModalOpen m) (handleFormSubmit (fs m))))
        with (submit_click ev (Nat.iter k (submit_click ev) (mkModal (isModalOpen m) (handleFormSubmit (fs m))))).
      rewrite IH. unfold submit_click, can_submit. cbn [fs handleFormSubmit isSubmitting negb].
      rewrite andb_false_r. reflexivity. }
    rewrite Hk. cbn. rewrite length_app. cbn. lia.
  - assert (Hk : forall k, Nat.iter k (submit_click ev) m = m).
    { induction k as [|k IH]; [reflexivity|].
      change (Nat.iter (S k) (submit_click ev) m) with (submit_click ev (Nat.iter k (submit_click ev) m)).
      rewrite IH. unfold submit_click. rewrite Hc. reflexivity. }
    assert (E : submit_click ev m = m) by (unfold submit_click; rewrite Hc; reflexivity).
    rewrite E, Hk. lia.
Qed.

(** Picking a plan after a request settled shows the form again for that
    plan; the name, email and mobile number are cleared after a 2xx
    response and kept otherwise. *)
Theorem reopen_after_settle (ev : string -> bool) (o : outcome) (p : string) (m : modal_state)
  (Hin : inflight (fs m) <> 0) :
  modal_view_of (modal_step ev (PlanSelect p) (modal_step ev (ModalSettle o) m)) = FormView /\
  isSubmitting (fs (modal_step ev (PlanSelect p) (modal_step ev (ModalSettle o) m))) = false /\
  selectedPlan (fs (modal_step ev (PlanSelect p) (modal_step ev (ModalSettle o) m))) = Some p /\
  formData (fs (modal_step ev (PlanSelect p) (modal_step ev (ModalSettle o) m))) =
    set_plan p (match o with RespOk => empty_form | _ => formData (fs m) end).
Proof.
  cbn [modal_step]. apply Nat.eqb_neq in Hin. rewrite Hin.
  destruct o; repeat split; reflexivity.
Qed.

Lemma reopen_after_settle_witness :
  formData (fs (modal_step has_at (PlanSelect "Growth") (modal_step has_at (ModalSettle RespOk) pending)))
  = mkFormData EmptyString EmptyString EmptyString "Growth".
Proof.
  assert (Hin : inflight (fs pending) <> 0) by discriminate.
  exact (proj2 (proj2 (proj2 (reopen_after_settle has_at RespOk "Growth" pending Hin)))).
Defined.

(** Closing the modal while submitting and picking a plan again shows the
    form with the submit button still disabled; when the earlier request
    then settles, its status replaces the form, and a 2xx response wipes
    the newly picked plan. *)
Theorem reopen_during_submit (ev : string -> bool) (o : outcome) (p : string) (m : modal_state)
  (Hsub : isSubmitting (fs m) = true) (Hin : inflight (fs m) <> 0) :
  modal_view_of (modal_step ev (PlanSelect p) (modal_step ev CloseClick m)) = FormView /\
  modal_step ev SubmitClick (modal_step ev (PlanSelect p) (modal_step ev CloseClick m)) =
    modal_step ev (PlanSelect p) (modal_step ev CloseClick m) /\
  modal_view_of (modal_step ev (ModalSettle o) (modal_step ev (PlanSelect p) (modal_step ev CloseClick m))) =
    StatusView (match o with RespOk => true | _ => false end) (settle_msg o) /\
  (o = RespOk ->
   formData (fs (modal_step ev (ModalSettle o) (modal_step ev (PlanSelect p) (modal_step ev CloseClick m)))) = empty_form /\
   selectedPlan (fs (modal_step ev (ModalSettle o) (modal_step ev (PlanSelect p) (modal_step ev CloseClick m)))) = None).
Proof.
  assert (Ec : fs (modal_step ev CloseClick m) = fs m).
  { cbn [modal_step]. destruct (isModalOpen m); reflexivity. }
  remember (modal_step ev CloseClick m) as m0 eqn:E0. clear E0.
  cbn [modal_step]. unfold handlePlanSelect. cbn [fs inflight isModalOpen isSubmitting].
  rewrite !Ec. apply Nat.eqb_neq in Hin. rewrite Hin.
  refine (conj _ (conj _ (conj _ _))).
  - reflexivity.
  - unfold submit_click, can_submit. cbn [fs isSubmitting]. rewrite Hsub.
    cbn [negb]. rewrite andb_false_r. reflexivity.
  - unfold modal_view_of. cbn [fs isModalOpen negb].
    rewrite settle_submitSuccess, settle_msg_nonempty, settle_msg_green. reflexivity.
  - intros ->. split; reflexivity.
Qed.

Lemma reopen_during_submit_witness :
  selectedPlan (fs (modal_step has_at (ModalSettle RespOk)
    (modal_step has_at (PlanSelect "Growth") (modal_step has_at CloseClick pending)))) = None.
Proof.
  assert (Hin : inflight (fs pending) <> 0) by discriminate.
  exact (proj2 (proj2 (proj2 (proj2 (reopen_during_submit has_at RespOk "Growth" pending eq_refl Hin)))
    eq_refl)).
Defined.

Definition plan_field (o : option string) : string :=
  match o with Some p => p | None => EmptyString end.

Definition valid_request (ev : string -> bool) (sel : list string) (r : form_data) : Prop :=
  name r <> EmptyString /\ email r <> EmptyString /\ ev (email r) = true /\
  mobile r <> EmptyString /\ In (plan r) sel.

Definition modal_inv (ev : string -> bool) (sel : list string) (m : modal_state) : Prop :=
  inflight (fs m) <= 1 /\ isSubmitting (fs m) = negb (inflight (fs m) =? 0) /\
  plan (formData (fs m)) = plan_field (selectedPlan (fs m)) /\
  (form_shown m = true -> selectedPlan (fs m) <> None) /\
  (forall p, selectedPlan (fs m) = Some p -> In p sel) /\
  Forall (valid_request ev sel) (requests (fs m)).

Lemma valid_request_mono (ev : string -> bool) (sel l : list string) (rs : list form_data) :
  Forall (valid_request ev sel) rs -> Forall (valid_request ev (sel ++ l)) rs.
Proof.
  apply Forall_impl. intros r (H1 & H2 & H3 & H4 & H5).
  repeat split; auto. apply in_or_app. left; exact H5.
Qed.

Lemma nonempty_true (s : string) : nonempty s = true -> s <> EmptyString.
Proof. unfold nonempty. intros H ->. discriminate H. Qed.

Lemma modal_inv_settle (ev : string -> bool) (sel : list string) (o : outcome) (m : modal_state) :
  modal_inv ev sel m -> modal_inv ev sel (modal_step ev (ModalSettle o) m).
Proof.
  intros Hi. cbn [modal_step].
  destruct (inflight (fs m) =? 0) eqn:Hz; [exact Hi|].
  destruct Hi as (H1 & H2 & H3 & H4 & H5 & H6).
  - apply Nat.eqb_neq in Hz.
    assert (Hf : form_shown (mkModal (isModalOpen m) (settle o (fs m))) = false).
    { unfold form_shown. cbn [fs]. rewrite settle_submitSuccess, settle_msg_nonempty.
      apply andb_false_r. }
    unfold modal_inv. rewrite Hf.
    destruct (inflight (fs m)) as [|[|k]] eqn:Ei; [lia| |lia].
    destruct o; cbn; rewrite ?Ei;
      repeat split; try (intros; discriminate); auto.
Qed.

Lemma modal_inv_step (ev : string -> bool) (sel : list string) (e : modal_event) (m : modal_state) :
  modal_inv ev sel m -> modal_inv ev (sel ++ selected_of e) (modal_step ev e m).
Proof.
  intros Hi. destruct e as [p | | | | v | v | v | o]; cbn [selected_of]; rewrite ?app_nil_r.
  - destruct Hi as (H1 & H2 & H3 & H4 & H5 & H6). cbn.
    repeat split; auto.
    + discriminate.
    + intros q Hq. injection Hq as <-. apply in_or_app. right. left. reflexivity.
    + apply valid_request_mono. exact H6.
  - cbn [modal_step]. destruct (isModalOpen m); [|exact Hi].
    destruct Hi as (H1 & H2 & H3 & H4 & H5 & H6). repeat split; auto.
    discriminate.
  - cbn [modal_step]. destruct (isModalOpen m); [|exact Hi].
    unfold handleBackdropClick. destruct (negb (isSubmitting (fs m))); [|exact Hi].
    destruct Hi as (H1 & H2 & H3 & H4 & H5 & H6). repeat split; auto.
    discriminate.
  - cbn [modal_step]. unfold submit_click.
    destruct (can_submit ev m) eqn:Hc; [|exact Hi].
    destruct Hi as (H1 & H2 & H3 & H4 & H5 & H6).
    unfold can_submit in Hc.
    apply andb_prop in Hc as [Hc Hmb]. apply andb_prop in Hc as [Hc Hv].
    apply andb_prop in Hc as [Hc Hem]. apply andb_prop in Hc as [Hc Hnm].
    apply andb_prop in Hc as [Hshown Hns].
    assert (Hz : inflight (fs m) = 0).
    { rewrite H2 in Hns. destruct (inflight (fs m)); [reflexivity | discriminate]. }
    destruct (selectedPlan (fs m)) as [q|] eqn:Hq; [| exfalso; apply (H4 Hshown); reflexivity].
    unfold modal_inv. cbn [fs handleFormSubmit isSubmitting inflight selectedPlan
      formData requests]. rewrite Hz, Hq.
    refine (conj _ (conj eq_refl (conj H3 (conj (fun _ => H4 Hshown) (conj H5 _))))).
    + lia.
    + apply Forall_app. split; [exact H6|]. constructor; [|constructor].
      repeat split; auto using nonempty_true.
      rewrite H3. apply H5. reflexivity.
  - cbn [modal_step]. unfold edit_form. destruct (form_shown m); [|exact Hi].
    destruct Hi as (H1 & H2 & H3 & H4 & H5 & H6). repeat split; auto.
  - cbn [modal_step]. unfold edit_form. destruct (form_shown m); [|exact Hi].
    destruct Hi as (H1 & H2 & H3 & H4 & H5 & H6). repeat split; auto.
  - cbn [modal_step]. unfold edit_form. destruct (form_shown m); [|exact Hi].
    destruct Hi as (H1 & H2 & H3 & H4 & H5 & H6). repeat split; auto.
  - apply modal_inv_settle. exact Hi.
Qed.

Lemma modal_inv_run (ev : string -> bool) (evs : list modal_event) :
  modal_inv ev (selected evs) (modal_run ev evs modal_init).
Proof.
  induction evs as [|e evs IH] using rev_ind.
  - repeat split; cbn; try lia; try discriminate; auto.
  - unfold modal_run in *. rewrite fold_left_app. cbn [fold_left].
    unfold selected in *. rewrite map_app, concat_app. cbn [map List.concat].
    rewrite app_nil_r. apply modal_inv_step. exact IH.
Qed.

(** Whatever the user does from the initial page: at most one request is
    in flight, [isSubmitting] holds exactly while one is, the read-only
    plan input shows the selected plan, and every request issued carries a
    non-empty name, email and mobile number, an email the browser accepts,
    and the name of a plan the user picked. *)
Theorem modal_invariant (ev : string -> bool) (evs : list modal_event) :
  inflight (fs (modal_run ev evs modal_init)) <= 1 /\
  isSubmitting (fs (modal_run ev evs modal_init)) =
    negb (inflight (fs (modal_run ev evs modal_init)) =? 0) /\
  plan (formData (fs (modal_run ev evs modal_init))) =
    plan_field (selectedPlan (fs (modal_run ev evs modal_init))) /\
  Forall (fun r => name r <> EmptyString /\ email r <> EmptyString /\ ev (email r) = true /\
                   mobile r <> EmptyString /\ In (plan r) (selected evs))
    (requests (fs (modal_run ev evs modal_init))).
Proof.
  destruct (modal_inv_run ev evs) as (H1 & H2 & H3 & _ & _ & H6). auto.
Qed.

End LeadModalFacts.
